(** * Prusa MMU firmware: the Home command and the register access engine

    Shallow embedding of [src/src/logic/home.cpp] (the [Home] command
    state machine) and [src/src/registers.cpp] (the register table and
    [ReadRegister] / [WriteRegister]). *)

From Stdlib Require Import ZArith List Lia Bool.
Import ListNotations.
Open Scope Z_scope.

(** ** Command state: progress and error codes *)

(** [ProgressCode]: the phases [Home] distinguishes ([OK], [Homing],
    [ERRInternal]) and the phases of the other commands, which [Home]'s
    switch lumps into its [default] branch: in-progress phases
    ([PC_Other]) and the other [ERR*] phases ([PC_ERR]). *)
Inductive ProgressCode :=
| PC_OK
| PC_Homing
| PC_ERRInternal
| PC_ERR (n : nat)
| PC_Other (n : nat).

Inductive ErrorCode :=
| EC_RUNNING
| EC_OK
| EC_INTERNAL
| EC_Other (n : nat).

(** Terminal phases: [OK] or any [ERR*]. *)
Definition terminal (p : ProgressCode) : bool :=
  match p with
  | PC_OK | PC_ERRInternal | PC_ERR _ => true
  | _ => false
  end.

(** State reported by an axis ([mi::idler.State()], [ms::selector.State()]). *)
Inductive AxisState := Ready | Moving | HomingAxis | Failed.

Definition axis_ready (s : AxisState) : bool :=
  match s with Ready => true | _ => false end.

Module Home.

Record Home := mkHome { state : ProgressCode; error : ErrorCode }.

(** [Home::Reset]: [error = RUNNING; state = Homing;] followed by
    [InvalidateHomingAndFilamentState()], which touches the idler, selector
    and globals, not [state] or [error]. *)
Definition Reset (_param : Z) (_h : Home) : Home :=
  mkHome PC_Homing EC_RUNNING.

(** [Home::StepInner], with the idler and selector states observed during
    the call. Returns the result and the new command state. *)
Definition StepInner (idler selector : AxisState) (h : Home) : bool * Home :=
  match state h with
  | PC_Homing =>
      if axis_ready idler && axis_ready selector
      then (false, mkHome PC_OK EC_OK)
      else (false, h)
  | PC_OK => (true, h)
  | _ => (true, mkHome PC_ERRInternal EC_INTERNAL)
  end.

(** The operations the main loop and the protocol layer apply to [home]. *)
Inductive Op :=
| OpReset (param : Z)
| OpStep (idler selector : AxisState).

Definition apply_op (h : Home) (o : Op) : Home :=
  match o with
  | OpReset p => Reset p h
  | OpStep i s => snd (StepInner i s h)
  end.

Definition exec (h : Home) (ops : list Op) : Home := fold_left apply_op ops h.

(** Run [Step] on a sequence of observations of (idler, selector),
    recording the result and the command state after each call. *)
Fixpoint run (h : Home) (obs : list (AxisState * AxisState))
  : list (bool * Home) :=
  match obs with
  | [] => []
  | (i, s) :: rest =>
      let '(b, h') := StepInner i s h in (b, h') :: run h' rest
  end.

Definition both_ready (o : AxisState * AxisState) : bool :=
  axis_ready (fst o) && axis_ready (snd o).

Definition lockstep (h : Home) : Prop :=
  (state h = PC_Homing /\ error h = EC_RUNNING) \/
  (state h = PC_OK /\ error h = EC_OK) \/
  (state h = PC_ERRInternal /\ error h = EC_INTERNAL).

End Home.

(** ** The register access engine *)

Module Registers.

(** Byte-addressed RAM: each cell holds one byte. *)
Definition Mem := Z -> Z.

Definition upd (m : Mem) (p v : Z) : Mem :=
  fun q => if Z.eqb q p then v else m q.

(** Loads and stores through [uint8_t] and [uint16_t] pointers;
    multi-byte cells are little-endian (AVR). A store of the
    [uint16_t] value through a [uint8_t] pointer keeps its low byte. *)
Definition load8 (m : Mem) (p : Z) : Z := m p.
Definition load16 (m : Mem) (p : Z) : Z := m p + 256 * m (p + 1).
Definition store8 (m : Mem) (p v : Z) : Mem := upd m p (v mod 256).
Definition store16 (m : Mem) (p v : Z) : Mem :=
  upd (upd m p (v mod 256)) (p + 1) ((v / 256) mod 256).

(** Modelled from the spec: the idler (module [mi::idler], whose source
    [modules/idler.cpp] is not part of this development). Per the spec it
    is an actuator with an asynchronous "start moving to target" operation
    ([Engage] / [Disengage]), a "current position" query ([Slot]) and a
    ready predicate ([State]); the move completes on a later tick of the
    main loop ([Idler_FinishMove]). *)
Record Idler := mkIdler {
  currentSlot : Z;
  plannedSlot : Z;
  idlerState : AxisState
}.

(** The machine state the registers read and write: RAM (which holds the
    raw-backed cells and the globals) and the idler. *)
Record World := mkWorld { mem : Mem; idler : Idler }.

Definition with_mem (m : Mem) (w : World) : World := mkWorld m (idler w).
Definition with_idler (i : Idler) (w : World) : World := mkWorld (mem w) i.

(** Implicit conversions to the parameter types [uint8_t] and [uint16_t]. *)
Definition u8 (v : Z) : Z := v mod 256.
Definition u16 (v : Z) : Z := v mod 65536.

(** [struct RegisterFlags]: [size] is a 2-bit bitfield, so the value given
    to the constructor is kept modulo 4. *)
Record RegisterFlags := mkFlags { writable : bool; rwfuncs : bool; size : Z }.

Definition RegisterFlags2 (writable : bool) (size : Z) : RegisterFlags :=
  mkFlags writable false (size mod 4).
Definition RegisterFlags3 (writable rwfuncs : bool) (size : Z) : RegisterFlags :=
  mkFlags writable rwfuncs (size mod 4).

(** [TReadFunc], a pointer to a [uint16_t] function of no argument, and
    [TWriteFunc], a pointer to a [void] function of a [uint16_t]. *)
Definition TReadFunc := World -> Z.
Definition TWriteFunc := Z -> World -> World.

(** The unions [U1] (address or read function) and [U2] (null address or
    write function), with the member the constructor initialised. *)
Inductive U1 := U1_addr (a : Z) | U1_readFunc (f : TReadFunc).
Inductive U2 := U2_null | U2_writeFunc (f : TWriteFunc).

Record RegisterRec := mkRec { flags : RegisterFlags; A1 : U1; A2 : U2 }.

(** The four constructors of [RegisterRec]. The raw constructor (a [bool]
    and a pointer to [T]) takes [sizeof(T)] as its size. *)
Definition RegisterRec_raw (writable : bool) (sizeof_T : Z) (address : Z) : RegisterRec :=
  mkRec (RegisterFlags2 writable sizeof_T) (U1_addr address) U2_null.
Definition RegisterRec_ro (readFunc : TReadFunc) (bytes : Z) : RegisterRec :=
  mkRec (RegisterFlags3 false true bytes) (U1_readFunc readFunc) U2_null.
Definition RegisterRec_rw (readFunc : TReadFunc) (writeFunc : TWriteFunc) (bytes : Z)
  : RegisterRec :=
  mkRec (RegisterFlags3 true true bytes) (U1_readFunc readFunc) (U2_writeFunc writeFunc).
Definition RegisterRec_empty (dummyZero : Z) : RegisterRec :=
  mkRec (RegisterFlags3 false false 1) (U1_addr dummyZero) U2_null.

(** [ReadRegister(uint8_t address, uint16_t &value)] over a register table
    [registers]; [value] is the out-parameter's content on entry, the
    result pairs the returned [bool] with its content on exit. Every
    constructor pairs [rwfuncs = 0] with the [addr] member of [A1] and
    [rwfuncs = 1] with [readFunc], so the mismatched branches below are
    never taken on a table built with them. *)
Definition ReadRegister (registers : list RegisterRec) (address value : Z) (w : World)
  : bool * Z :=
  let address := u8 address in
  if Z.of_nat (length registers) <=? address then (false, value) else
  match nth_error registers (Z.to_nat address) with
  | None => (false, value)
  | Some r =>
      let value := 0 in
      if negb (rwfuncs (flags r)) then
        match size (flags r), A1 r with
        | 0, U1_addr p | 1, U1_addr p => (true, load8 (mem w) p)
        | 2, U1_addr p => (true, load16 (mem w) p)
        | _, _ => (false, value)
        end
      else
        match size (flags r), A1 r with
        | 0, U1_readFunc f | 1, U1_readFunc f | 2, U1_readFunc f =>
            (true, u16 (f w))
        | _, _ => (false, value)
        end
  end.

(** [WriteRegister(uint8_t address, uint16_t value)]: the returned [bool]
    and the machine state afterwards. *)
Definition WriteRegister (registers : list RegisterRec) (address value : Z) (w : World)
  : bool * World :=
  let address := u8 address in
  let value := u16 value in
  if Z.of_nat (length registers) <=? address then (false, w) else
  match nth_error registers (Z.to_nat address) with
  | None => (false, w)
  | Some r =>
      if negb (writable (flags r)) then (false, w) else
      if negb (rwfuncs (flags r)) then
        match size (flags r), A1 r with
        | 0, U1_addr p | 1, U1_addr p => (true, with_mem (store8 (mem w) p value) w)
        | 2, U1_addr p => (true, with_mem (store16 (mem w) p value) w)
        | _, _ => (false, w)
        end
      else
        match size (flags r), A2 r with
        | 0, U2_writeFunc f | 1, U2_writeFunc f | 2, U2_writeFunc f =>
            (true, f value w)
        | _, _ => (false, w)
        end
  end.

(** Modelled from the spec: [mi::idler.Slot()] (the current slot),
    [Engage(slot)] and [Disengage()] (start an asynchronous move to the
    slot, resp. to the idle position [IdleSlotIndex]), and the completion of
    the move on a later tick. *)
Definition Idler_Slot (w : World) : Z := currentSlot (idler w).

Definition Idler_Engage (slot : Z) (w : World) : World :=
  with_idler (mkIdler (currentSlot (idler w)) slot Moving) w.

Definition Idler_Disengage (IdleSlotIndex : Z) (w : World) : World :=
  with_idler (mkIdler (currentSlot (idler w)) IdleSlotIndex Moving) w.

Definition Idler_FinishMove (w : World) : World :=
  match idlerState (idler w) with
  | Moving => with_idler (mkIdler (plannedSlot (idler w)) (plannedSlot (idler w)) Ready) w
  | _ => w
  end.

(** What the register table refers to outside this file: the addresses of
    [project_major], [project_minor], [project_revision],
    [project_build_number] (declared in [version.hpp]) and [sizeof] of their
    types; the accessor lambdas of registers 0x04..0x1B, which call into
    modules that are not part of this development ([mg::globals],
    [application], [mf::finda], [mfs::fsensor], [config], [mpu::pulley],
    [ms::selector]): [getter a] and [setter a] stand for the lambdas of
    register [a]; [config::toolCount]; the idler's idle position. *)
Record TableEnv := mkEnv {
  project_major : Z; project_minor : Z; project_revision : Z; project_build_number : Z;
  sizeof_major : Z; sizeof_minor : Z; sizeof_revision : Z; sizeof_build : Z;
  getter : Z -> TReadFunc;
  setter : Z -> TWriteFunc;
  toolCount : Z;
  IdleSlotIndex : Z
}.

Section Table.

Variable env : TableEnv.

(** The write lambda of register 0x1C. *)
Definition idler_write (d : Z) (w : World) : World :=
  if toolCount env <=? d then Idler_Disengage (IdleSlotIndex env) w else Idler_Engage d w.

(** [static const RegisterRec registers[]]. *)
Definition registers : list RegisterRec := [
  (* 0x00 *) RegisterRec_raw false (sizeof_major env) (project_major env);
  (* 0x01 *) RegisterRec_raw false (sizeof_minor env) (project_minor env);
  (* 0x02 *) RegisterRec_raw false (sizeof_revision env) (project_revision env);
  (* 0x03 *) RegisterRec_raw false (sizeof_build env) (project_build_number env);
  (* 0x04 *) RegisterRec_ro (getter env 4) 2;
  (* 0x05 *) RegisterRec_ro (getter env 5) 1;
  (* 0x06 *) RegisterRec_ro (getter env 6) 2;
  (* 0x07 *) RegisterRec_rw (getter env 7) (setter env 7) 1;
  (* 0x08 *) RegisterRec_ro (getter env 8) 1;
  (* 0x09 *) RegisterRec_rw (getter env 9) (setter env 9) 1;
  (* 0x0a *) RegisterRec_ro (getter env 10) 1;
  (* 0x0b *) RegisterRec_rw (getter env 11) (setter env 11) 1;
  (* 0x0c *) RegisterRec_rw (getter env 12) (setter env 12) 1;
  (* 0x0d *) RegisterRec_rw (getter env 13) (setter env 13) 2;
  (* 0x0e *) RegisterRec_ro (getter env 14) 2;
  (* 0x0f *) RegisterRec_ro (getter env 15) 2;
  (* 0x10 *) RegisterRec_ro (getter env 16) 2;
  (* 0x11 *) RegisterRec_rw (getter env 17) (setter env 17) 2;
  (* 0x12 *) RegisterRec_rw (getter env 18) (setter env 18) 2;
  (* 0x13 *) RegisterRec_rw (getter env 19) (setter env 19) 2;
  (* 0x14 *) RegisterRec_rw (getter env 20) (setter env 20) 2;
  (* 0x15 *) RegisterRec_ro (getter env 21) 2;
  (* 0x16 *) RegisterRec_ro (getter env 22) 2;
  (* 0x17 *) RegisterRec_ro (getter env 23) 2;
  (* 0x18 *) RegisterRec_ro (getter env 24) 2;
  (* 0x19 *) RegisterRec_ro (getter env 25) 2;
  (* 0x1a *) RegisterRec_ro (getter env 26) 2;
  (* 0x1b *) RegisterRec_rw (getter env 27) (setter env 27) 1;
  (* 0x1c *) RegisterRec_rw Idler_Slot idler_write 1
].

Definition registersSize : Z := Z.of_nat (length registers).

End Table.

(** A sample configuration: five tools, the idle position after the last
    slot, constant accessors; and a machine with the idler at rest on
    slot 2. *)
Definition sample_env : TableEnv :=
  mkEnv 0 1 2 3 1 1 1 2 (fun _ _ => 0) (fun _ _ w => w) 5 5.

Definition sample_world : World := mkWorld (fun _ => 0) (mkIdler 2 2 Ready).

(** The addresses of the shipped table whose descriptor is writable. *)
Definition writable_addr (a : Z) : bool :=
  existsb (Z.eqb a) [7; 9; 11; 12; 13; 17; 18; 19; 20; 27; 28].

End Registers.

(** * Properties of the Home command *)

Module HomeFacts.
Import Home.

Lemma reset_state (p : Z) (h : Home) : Reset p h = mkHome PC_Homing EC_RUNNING.
Proof. reflexivity. Qed.

Lemma run_not_ready (obs : list (AxisState * AxisState)) :
  Forall (fun o => both_ready o = false) obs ->
  run (mkHome PC_Homing EC_RUNNING) obs =
  repeat (false, mkHome PC_Homing EC_RUNNING) (length obs).
Proof.
  induction obs as [|[i s] obs IH]; intros Hf; [reflexivity|].
  inversion Hf as [|? ? Hnr Hrest]; subst.
  unfold both_ready in Hnr; simpl in Hnr. cbn [run StepInner state]. rewrite Hnr.
  simpl. f_equal. exact (IH Hrest).
Qed.

Lemma run_ok (obs : list (AxisState * AxisState)) :
  run (mkHome PC_OK EC_OK) obs = repeat (true, mkHome PC_OK EC_OK) (length obs).
Proof.
  induction obs as [|[i s] obs IH]; [reflexivity|]. simpl. now rewrite IH.
Qed.

Lemma lockstep_apply_op (h : Home) (o : Op) : lockstep h -> lockstep (apply_op h o).
Proof.
  intros Hl. destruct o as [p|i s]; simpl.
  - left; split; reflexivity.
  - destruct Hl as [[Hs He]|[[Hs He]|[Hs He]]]; unfold StepInner; rewrite Hs; simpl.
    + destruct (axis_ready i && axis_ready s) eqn:Hr; simpl; rewrite ?Hr; simpl.
      * right; left; split; reflexivity.
      * left; split; assumption.
    + right; left; split; assumption.
    + right; right; split; reflexivity.
Qed.

Lemma lockstep_exec (h : Home) (ops : list Op) : lockstep h -> lockstep (exec h ops).
Proof.
  unfold exec. revert h. induction ops as [|o ops IH]; intros h Hl; simpl.
  - exact Hl.
  - apply IH, lockstep_apply_op, Hl.
Qed.

(** C2 (counterexample): the idler and selector are Ready, yet the first
    [Step] after [Reset] returns [false] (it moves to [OK] and reports
    completion only on the following call). *)
Lemma home_first_step_not_done :
  StepInner Ready Ready (Reset 0 (mkHome PC_OK EC_OK)) = (false, mkHome PC_OK EC_OK).
Proof. reflexivity. Qed.

(** C2 (as amended): the first [Step] after [Reset] returns [false]; it
    moves to [OK]/[Ok] when idler and selector are both Ready, and then the
    next [Step] returns [true] and keeps [OK]/[Ok]. In general [Step] returns
    [true] exactly when the state on entry is not [Homing]: from [OK] (with
    any error) it changes nothing, from any other value it sets
    [ERRInternal]/[Internal]. *)
Theorem home_step_after_reset (p : Z) (h : Home) (i s i' s' : AxisState) :
  StepInner i s (Reset p h) =
    (false, if axis_ready i && axis_ready s then mkHome PC_OK EC_OK
            else mkHome PC_Homing EC_RUNNING) /\
  (axis_ready i && axis_ready s = true ->
   StepInner i' s' (snd (StepInner i s (Reset p h))) = (true, mkHome PC_OK EC_OK)) /\
  (forall h0 : Home,
   fst (StepInner i s h0) = negb (match state h0 with PC_Homing => true | _ => false end) /\
   (state h0 = PC_OK -> StepInner i s h0 = (true, h0)) /\
   (state h0 <> PC_Homing -> state h0 <> PC_OK ->
    StepInner i s h0 = (true, mkHome PC_ERRInternal EC_INTERNAL))).
Proof.
  split; [|split].
  - unfold StepInner; simpl. destruct (axis_ready i && axis_ready s); reflexivity.
  - intros Hr. unfold StepInner; simpl. rewrite Hr. reflexivity.
  - intros [st er]. split; [|split].
    + unfold StepInner; destruct st; simpl; try reflexivity.
      destruct (axis_ready i && axis_ready s); reflexivity.
    + simpl. intros ->. reflexivity.
    + simpl. intros H1 H2. unfold StepInner; simpl.
      destruct st; try reflexivity; contradiction.
Qed.

(** C5: after [Reset], while idler or selector is not Ready every [Step]
    returns [false] and keeps [Homing]/[Running]; at the first observation
    of both Ready the state moves to [OK]/[Ok] once and stays there. *)
Theorem home_converges_once (p : Z) (h : Home)
    (pre : list (AxisState * AxisState)) (i s : AxisState)
    (post : list (AxisState * AxisState)) :
  Forall (fun o => both_ready o = false) pre ->
  axis_ready i = true -> axis_ready s = true ->
  run (Reset p h) pre = repeat (false, mkHome PC_Homing EC_RUNNING) (length pre) /\
  run (Reset p h) (pre ++ (i, s) :: post) =
    repeat (false, mkHome PC_Homing EC_RUNNING) (length pre) ++
    (false, mkHome PC_OK EC_OK) :: repeat (true, mkHome PC_OK EC_OK) (length post).
Proof.
  intros Hpre Hi Hs. rewrite reset_state. split.
  - apply run_not_ready, Hpre.
  - induction Hpre as [|[i0 s0] pre Hnr Hrest IH].
    + cbn [app run StepInner state]. rewrite Hi, Hs. cbn [andb].
      simpl. f_equal. apply run_ok.
    + unfold both_ready in Hnr; simpl in Hnr.
      cbn [app run StepInner state]. rewrite Hnr. simpl. f_equal. exact IH.
Qed.

Lemma home_converges_once_witness :
  Forall (fun o => both_ready o = false) [(Moving, Ready)] /\
  axis_ready Ready = true /\ axis_ready Ready = true /\
  (run (Reset 0 (mkHome PC_OK EC_OK)) [(Moving, Ready)] =
     repeat (false, mkHome PC_Homing EC_RUNNING) 1 /\
   run (Reset 0 (mkHome PC_OK EC_OK)) ([(Moving, Ready)] ++ (Ready, Ready) :: [(Failed, Moving)]) =
     repeat (false, mkHome PC_Homing EC_RUNNING) 1 ++
     (false, mkHome PC_OK EC_OK) :: repeat (true, mkHome PC_OK EC_OK) 1).
Proof.
  split; [repeat constructor|]. split; [reflexivity|]. split; [reflexivity|].
  apply (home_converges_once 0 (mkHome PC_OK EC_OK) [(Moving, Ready)] Ready Ready [(Failed, Moving)]).
  - repeat constructor.
  - reflexivity.
  - reflexivity.
Defined.

(** C7: any non-empty run of [Reset] calls leaves [Homing]/[Running],
    whatever the state and error before. *)
Theorem home_reset_idempotent (p : Z) (ps : list Z) (h : Home) :
  let h' := fold_left (fun h0 q => Reset q h0) (p :: ps) h in
  state h' = PC_Homing /\ error h' = EC_RUNNING.
Proof.
  cbv zeta. revert p h. induction ps as [|q ps IH]; intros p h.
  - split; reflexivity.
  - exact (IH q (Reset p h)).
Qed.

(** C8: from any state other than [Homing] and [OK], [Step] sets
    [ERRInternal]/[Internal] and returns [true]. *)
Theorem home_step_unhandled (i s : AxisState) (h : Home) :
  state h <> PC_Homing -> state h <> PC_OK ->
  StepInner i s h = (true, mkHome PC_ERRInternal EC_INTERNAL).
Proof.
  intros H1 H2. unfold StepInner.
  destruct (state h); try reflexivity; contradiction.
Qed.

Lemma home_step_unhandled_witness :
  PC_Other 7 <> PC_Homing /\ PC_Other 7 <> PC_OK /\
  StepInner Moving Ready (mkHome (PC_Other 7) (EC_Other 2)) =
    (true, mkHome PC_ERRInternal EC_INTERNAL).
Proof.
  split; [discriminate|]. split; [discriminate|].
  apply (home_step_unhandled Moving Ready (mkHome (PC_Other 7) (EC_Other 2))); discriminate.
Defined.

(** C10: after a [Reset] and any sequence of [Reset] and [Step] calls,
    (state, error) is (Homing, Running), (OK, Ok) or (ERRInternal, Internal). *)
Theorem home_lockstep (p : Z) (h : Home) (ops : list Op) :
  lockstep (exec (Reset p h) ops).
Proof.
  apply lockstep_exec. left; split; reflexivity.
Qed.

End HomeFacts.

(** * Properties of the register access engine *)

Module RegisterFacts.
Import Registers.

Lemma u8_small (a : Z) : 0 <= a < 256 -> u8 a = a.
Proof. intros H. unfold u8. apply Z.mod_small. exact H. Qed.

Lemma nth_error_in_range {A : Type} (l : list A) (a : Z) (x : A) :
  0 <= a -> nth_error l (Z.to_nat a) = Some x -> (Z.of_nat (length l) <=? a) = false.
Proof.
  intros H0 Hn. apply Z.leb_gt.
  assert (Hlt : (Z.to_nat a < length l)%nat).
  { apply nth_error_Some. rewrite Hn. discriminate. }
  lia.
Qed.

Lemma upd_same (m : Mem) (p v : Z) : upd m p v p = v.
Proof. unfold upd. rewrite Z.eqb_refl. reflexivity. Qed.

Lemma upd_other (m : Mem) (p q v : Z) : q <> p -> upd m p v q = m q.
Proof. intros H. unfold upd. apply Z.eqb_neq in H. rewrite H. reflexivity. Qed.

Lemma load8_store8 (m : Mem) (p v : Z) : load8 (store8 m p v) p = v mod 256.
Proof. unfold load8, store8. apply upd_same. Qed.

Lemma load16_store16 (m : Mem) (p v : Z) :
  0 <= v < 65536 -> load16 (store16 m p v) p = v.
Proof.
  intros Hv. unfold load16, store16.
  rewrite upd_same, upd_other by lia. rewrite upd_same.
  assert (Hq : 0 <= v / 256 < 256).
  { split; [apply Z.div_pos; lia | apply Z.div_lt_upper_bound; lia]. }
  rewrite (Z.mod_small (v / 256) 256) by lia.
  pose proof (Z.div_mod v 256) as Hd. lia.
Qed.

Lemma u16_range (v : Z) : 0 <= u16 v < 65536.
Proof. unfold u16. apply Z.mod_pos_bound. lia. Qed.

(** C1: the table has 0x1D entries; for every address from 0x1D on,
    [ReadRegister] fails and leaves the out-parameter as it was, whatever
    the machine state, and [WriteRegister] fails and changes nothing. *)
Theorem registers_out_of_range (env : TableEnv) (a v x : Z) (w : World) :
  29 <= a < 256 ->
  registersSize env = 29 /\
  ReadRegister (registers env) a x w = (false, x) /\
  WriteRegister (registers env) a v w = (false, w).
Proof.
  intros Ha.
  assert (Hb : (Z.of_nat (length (registers env)) <=? a) = true)
    by (apply Z.leb_le; simpl; lia).
  split; [reflexivity|]. split.
  - unfold ReadRegister. rewrite u8_small by lia. rewrite Hb. reflexivity.
  - unfold WriteRegister. rewrite u8_small by lia. rewrite Hb. reflexivity.
Qed.

Lemma registers_out_of_range_witness :
  29 <= 200 < 256 /\
  registersSize sample_env = 29 /\
  ReadRegister (registers sample_env) 200 77 sample_world = (false, 77) /\
  WriteRegister (registers sample_env) 200 5 sample_world = (false, sample_world).
Proof.
  split; [lia|].
  apply (registers_out_of_range sample_env 200 5 77 sample_world). lia.
Defined.

(** C3: a write to a register whose descriptor is not writable fails for
    every value and leaves the machine state, hence any later read of that
    register, unchanged. *)
Theorem write_readonly_fails (registers : list RegisterRec) (a v x : Z) (w : World)
    (r : RegisterRec) :
  0 <= a < 256 ->
  nth_error registers (Z.to_nat a) = Some r ->
  writable (flags r) = false ->
  WriteRegister registers a v w = (false, w) /\
  ReadRegister registers a x (snd (WriteRegister registers a v w)) =
    ReadRegister registers a x w.
Proof.
  intros Ha Hn Hw.
  assert (Hwr : WriteRegister registers a v w = (false, w)).
  { unfold WriteRegister. rewrite u8_small by lia.
    rewrite (nth_error_in_range registers a r (proj1 Ha) Hn).
    rewrite Hn, Hw. reflexivity. }
  split; [exact Hwr|]. rewrite Hwr. reflexivity.
Qed.

Lemma write_readonly_fails_witness :
  0 <= 6 < 256 /\
  nth_error (registers sample_env) (Z.to_nat 6) =
    Some (RegisterRec_ro (getter sample_env 6) 2) /\
  writable (flags (RegisterRec_ro (getter sample_env 6) 2)) = false /\
  (WriteRegister (registers sample_env) 6 1234 sample_world = (false, sample_world) /\
   ReadRegister (registers sample_env) 6 0
     (snd (WriteRegister (registers sample_env) 6 1234 sample_world)) =
   ReadRegister (registers sample_env) 6 0 sample_world).
Proof.
  split; [lia|]. split; [reflexivity|]. split; [reflexivity|].
  apply (write_readonly_fails (registers sample_env) 6 1234 0 sample_world
           (RegisterRec_ro (getter sample_env 6) 2)); [lia | reflexivity | reflexivity].
Defined.

(** C6: for a writable register built by the raw constructor with
    [sizeof(T)] = 1 or 2, a write succeeds and a following read returns the
    written [uint16_t] value truncated to 8 resp. 16 bits. *)
Theorem raw_write_read_roundtrip (registers : list RegisterRec) (a sz p v x : Z)
    (w : World) :
  0 <= a < 256 ->
  nth_error registers (Z.to_nat a) = Some (RegisterRec_raw true sz p) ->
  sz = 1 \/ sz = 2 ->
  fst (WriteRegister registers a v w) = true /\
  ReadRegister registers a x (snd (WriteRegister registers a v w)) =
    (true, u16 v mod 2 ^ (8 * sz)).
Proof.
  intros Ha Hn Hsz.
  pose proof (nth_error_in_range registers a _ (proj1 Ha) Hn) as Hb.
  unfold WriteRegister, ReadRegister. rewrite u8_small by lia.
  rewrite Hb, Hn. unfold RegisterRec_raw, RegisterFlags2.
  destruct Hsz as [-> | ->]; simpl.
  - split; [reflexivity|]. rewrite load8_store8. reflexivity.
  - split; [reflexivity|]. rewrite load16_store16 by apply u16_range.
    rewrite (Z.mod_small (u16 v)) by apply u16_range. reflexivity.
Qed.

Lemma raw_write_read_roundtrip_witness :
  0 <= 1 < 256 /\
  nth_error [RegisterRec_raw false 1 10; RegisterRec_raw true 2 20] (Z.to_nat 1) =
    Some (RegisterRec_raw true 2 20) /\
  ((2 = 1 \/ 2 = 2) /\
   (fst (WriteRegister [RegisterRec_raw false 1 10; RegisterRec_raw true 2 20] 1 70000 sample_world) = true /\
    ReadRegister [RegisterRec_raw false 1 10; RegisterRec_raw true 2 20] 1 0
      (snd (WriteRegister [RegisterRec_raw false 1 10; RegisterRec_raw true 2 20] 1 70000 sample_world)) =
    (true, u16 70000 mod 2 ^ (8 * 2)))).
Proof.
  split; [lia|]. split; [reflexivity|]. split; [right; reflexivity|].
  apply (raw_write_read_roundtrip [RegisterRec_raw false 1 10; RegisterRec_raw true 2 20]
           1 2 20 70000 0 sample_world); [lia | reflexivity | right; reflexivity].
Defined.

(** C9: for an in-range register whose width field is not 0, 1 or 2,
    [ReadRegister] fails but has already set the out-parameter to 0; for
    an out-of-range address it fails and leaves the out-parameter as it was. *)
Theorem read_bad_width_zeroes (registers : list RegisterRec) (a a' x : Z) (w : World)
    (r : RegisterRec) :
  0 <= a < 256 ->
  nth_error registers (Z.to_nat a) = Some r ->
  size (flags r) = 3 ->
  Z.of_nat (length registers) <= a' < 256 ->
  ReadRegister registers a x w = (false, 0) /\
  ReadRegister registers a' x w = (false, x).
Proof.
  intros Ha Hn Hs Ha'. split.
  - unfold ReadRegister. rewrite u8_small by lia.
    rewrite (nth_error_in_range registers a r (proj1 Ha) Hn), Hn, Hs.
    destruct (rwfuncs (flags r)), (A1 r); reflexivity.
  - unfold ReadRegister. rewrite u8_small by lia.
    replace (Z.of_nat (length registers) <=? a') with true
      by (symmetry; apply Z.leb_le; lia).
    reflexivity.
Qed.

Lemma read_bad_width_zeroes_witness :
  0 <= 0 < 256 /\
  nth_error [RegisterRec_ro (fun _ => 9) 3] (Z.to_nat 0) =
    Some (RegisterRec_ro (fun _ => 9) 3) /\
  size (flags (RegisterRec_ro (fun _ => 9) 3)) = 3 /\
  Z.of_nat (length [RegisterRec_ro (fun _ => 9) 3]) <= 1 < 256 /\
  (ReadRegister [RegisterRec_ro (fun _ => 9) 3] 0 55 sample_world = (false, 0) /\
   ReadRegister [RegisterRec_ro (fun _ => 9) 3] 1 55 sample_world = (false, 55)).
Proof.
  split; [lia|]. split; [reflexivity|]. split; [reflexivity|].
  split; [simpl; lia|].
  apply (read_bad_width_zeroes [RegisterRec_ro (fun _ => 9) 3] 0 1 55 sample_world
           (RegisterRec_ro (fun _ => 9) 3)); [lia | reflexivity | reflexivity | simpl; lia].
Defined.

(** C4 (counterexample): with five tools and the idler at rest on slot 2,
    writing 5 to 0x1C succeeds, yet reading 0x1C right after returns 2, a
    valid slot: [Disengage] has only started the move. *)
Lemma idler_read_after_disengage_write :
  WriteRegister (registers sample_env) 28 5 sample_world =
    (true, Idler_Disengage 5 sample_world) /\
  ReadRegister (registers sample_env) 28 0 (Idler_Disengage 5 sample_world) = (true, 2) /\
  2 < toolCount sample_env.
Proof. split; [reflexivity|]. split; [reflexivity|]. simpl; lia. Qed.

(** C4 (as amended): a write of [d] to 0x1C calls [Disengage] when
    [d >= toolCount] and [Engage d] otherwise; a read right after returns
    the idler's slot from before the write, and once the move has finished
    it returns the idle position resp. [d]. *)
Theorem idler_register_write (env : TableEnv) (v x : Z) (w : World) :
  let d := u16 v in
  let w1 := if toolCount env <=? d then Idler_Disengage (IdleSlotIndex env) w
            else Idler_Engage d w in
  WriteRegister (registers env) 28 v w = (true, w1) /\
  ReadRegister (registers env) 28 x w1 = (true, u16 (currentSlot (idler w))) /\
  ReadRegister (registers env) 28 x (Idler_FinishMove w1) =
    (true, u16 (if toolCount env <=? d then IdleSlotIndex env else d)).
Proof.
  cbv zeta. split; [|split].
  - reflexivity.
  - destruct (toolCount env <=? u16 v); reflexivity.
  - destruct (toolCount env <=? u16 v); reflexivity.
Qed.

End RegisterFacts.

(** * Further properties of the register engine and of Home *)

Module ExtraFacts.
Import Home Registers HomeFacts RegisterFacts.

Lemma addr_cases (a : Z) :
  0 <= a < 29 -> exists n : nat, (n < 29)%nat /\ a = Z.of_nat n.
Proof. intros H. exists (Z.to_nat a). lia. Qed.

(** The shipped table accepts a write exactly at 0x07, 0x09, 0x0B-0x0D,
    0x11-0x14, 0x1B and 0x1C, for any value and machine state. *)
Theorem registers_write_ok_iff (env : TableEnv) (a v : Z) (w : World) :
  0 <= a < 256 ->
  fst (WriteRegister (registers env) a v w) = writable_addr a.
Proof.
  intros Ha. destruct (Z.lt_ge_cases a 29) as [Hlt|Hge].
  - destruct (addr_cases a (conj (proj1 Ha) Hlt)) as [n [Hn ->]].
    do 29 (destruct n as [|n]; [vm_compute; reflexivity|]). lia.
  - unfold WriteRegister. rewrite u8_small by lia.
    replace (Z.of_nat (length (registers env)) <=? a) with true
      by (symmetry; apply Z.leb_le; simpl; lia).
    unfold writable_addr. simpl.
    repeat (rewrite (proj2 (Z.eqb_neq a _)) by lia). reflexivity.
Qed.

Lemma registers_write_ok_iff_witness :
  0 <= 13 < 256 /\
  fst (WriteRegister (registers sample_env) 13 400 sample_world) = writable_addr 13.
Proof. split; [lia|]. apply registers_write_ok_iff. lia. Defined.

Lemma accessor_read_aux (env : TableEnv) (a x : Z) (w : World) :
  4 <= a <= 27 ->
  ReadRegister (registers env) a x w = (true, u16 (getter env a w)).
Proof.
  intros Ha. assert (H0 : 0 <= a - 4 < 29) by lia.
  destruct (addr_cases (a - 4) H0) as [n [_ Hn']].
  assert (Hn : (n < 24)%nat) by lia.
  replace a with (Z.of_nat n + 4) by lia.
  do 24 (destruct n as [|n]; [cbv -[u16]; reflexivity|]). lia.
Qed.

(** Registers 0x04-0x1B of the shipped table are read through their
    accessor lambda; the read succeeds and yields its [uint16_t] result. *)
Theorem registers_accessor_read (env : TableEnv) (a x : Z) (w : World) :
  4 <= a <= 27 ->
  ReadRegister (registers env) a x w = (true, u16 (getter env a w)).
Proof. apply accessor_read_aux. Qed.

Lemma registers_accessor_read_witness :
  4 <= 6 <= 27 /\
  ReadRegister (registers sample_env) 6 0 sample_world = (true, u16 (getter sample_env 6 sample_world)).
Proof. split; [lia|]. apply registers_accessor_read. lia. Defined.

(** Every address of the shipped table can be read, provided none of the
    four version variables has a type whose [sizeof] is 3 modulo 4 (which
    the 2-bit size field would turn into the rejected width 3). *)
Theorem registers_read_ok (env : TableEnv) (a x : Z) (w : World) :
  sizeof_major env mod 4 <> 3 -> sizeof_minor env mod 4 <> 3 ->
  sizeof_revision env mod 4 <> 3 -> sizeof_build env mod 4 <> 3 ->
  0 <= a < 29 ->
  fst (ReadRegister (registers env) a x w) = true.
Proof.
  intros H1 H2 H3 H4 Ha.
  destruct (Z.lt_ge_cases a 4) as [Hlt|Hge].
  - assert (H0 : 0 <= a < 29) by lia.
    destruct (addr_cases a H0) as [n [Hn ->]].
    unfold ReadRegister. rewrite u8_small by lia.
    replace (Z.of_nat (length (registers env)) <=? Z.of_nat n) with false
      by (symmetry; apply Z.leb_gt; simpl; lia).
    assert (Hsz : forall sz p, sz mod 4 <> 3 ->
              fst (let r := RegisterRec_raw false sz p in
                   let value := 0 in
                   if negb (rwfuncs (flags r)) then
                     match size (flags r), A1 r with
                     | 0, U1_addr p | 1, U1_addr p => (true, load8 (mem w) p)
                     | 2, U1_addr p => (true, load16 (mem w) p)
                     | _, _ => (false, value)
                     end
                   else
                     match size (flags r), A1 r with
                     | 0, U1_readFunc f | 1, U1_readFunc f | 2, U1_readFunc f =>
                         (true, u16 (f w))
                     | _, _ => (false, value)
                     end) = true).
    { intros sz p Hs. simpl.
      assert (Hr : 0 <= sz mod 4 < 4) by (apply Z.mod_pos_bound; lia).
      assert (Hc : sz mod 4 = 0 \/ sz mod 4 = 1 \/ sz mod 4 = 2) by lia.
      destruct Hc as [-> | [-> | ->]]; reflexivity. }
    do 4 (destruct n as [|n]; [apply Hsz; assumption|]). lia.
  - destruct (Z.eq_dec a 28) as [->|Hne].
    + reflexivity.
    + rewrite accessor_read_aux by lia. reflexivity.
Qed.

Lemma registers_read_ok_witness :
  sizeof_major sample_env mod 4 <> 3 /\ sizeof_minor sample_env mod 4 <> 3 /\
  sizeof_revision sample_env mod 4 <> 3 /\ sizeof_build sample_env mod 4 <> 3 /\
  0 <= 3 < 29 /\
  fst (ReadRegister (registers sample_env) 3 0 sample_world) = true.
Proof.
  assert (H : forall z, z = 1 \/ z = 2 -> z mod 4 <> 3)
    by (intros z [-> | ->]; discriminate).
  split; [apply H; left; reflexivity|]. split; [apply H; left; reflexivity|].
  split; [apply H; left; reflexivity|]. split; [apply H; right; reflexivity|].
  split; [lia|].
  apply registers_read_ok;
    [apply H; left; reflexivity | apply H; left; reflexivity |
     apply H; left; reflexivity | apply H; right; reflexivity | lia].
Defined.

Lemma upd_frame (m : Mem) (p v q : Z) : q <> p -> upd m p v q = m q.
Proof. apply upd_other. Qed.

(** A write through a raw-backed register touches only the cell(s) of that
    register: the byte at its address and, for width 2, the next one; the
    rest of RAM and the idler keep their contents, whether or not the write
    is accepted. *)
Theorem raw_write_frame (registers : list RegisterRec) (a sz p v q : Z) (w : World)
    (b : bool) :
  0 <= a < 256 ->
  nth_error registers (Z.to_nat a) = Some (RegisterRec_raw b sz p) ->
  q <> p -> q <> p + 1 ->
  mem (snd (WriteRegister registers a v w)) q = mem w q /\
  idler (snd (WriteRegister registers a v w)) = idler w.
Proof.
  intros Ha Hn Hp Hp1.
  unfold WriteRegister. rewrite u8_small by lia.
  rewrite (nth_error_in_range registers a _ (proj1 Ha) Hn), Hn.
  unfold RegisterRec_raw, RegisterFlags2. simpl.
  destruct b; simpl; [|split; reflexivity].
  repeat match goal with |- context [match ?e with _ => _ end] => destruct e end;
    simpl; try (split; reflexivity);
    unfold store8, store16; rewrite ?upd_frame by lia; split; reflexivity.
Qed.

Lemma raw_write_frame_witness :
  0 <= 1 < 256 /\
  nth_error [RegisterRec_raw false 1 10; RegisterRec_raw true 2 20] (Z.to_nat 1) =
    Some (RegisterRec_raw true 2 20) /\
  22 <> 20 /\ 22 <> 20 + 1 /\
  (mem (snd (WriteRegister [RegisterRec_raw false 1 10; RegisterRec_raw true 2 20] 1 513 sample_world)) 22 =
     mem sample_world 22 /\
   idler (snd (WriteRegister [RegisterRec_raw false 1 10; RegisterRec_raw true 2 20] 1 513 sample_world)) =
     idler sample_world).
Proof.
  split; [lia|]. split; [reflexivity|]. split; [lia|]. split; [lia|].
  apply (raw_write_frame [RegisterRec_raw false 1 10; RegisterRec_raw true 2 20]
           1 2 20 513 22 sample_world true); [lia | reflexivity | lia | lia].
Defined.

(** A writable raw register over a type whose [sizeof] is a multiple of 4
    gets size field 0 (the 2-bit bitfield wraps): a write stores, and a
    read returns, only the low byte of the value. *)
Theorem raw_size_wrap_low_byte (registers : list RegisterRec) (a sz p v x : Z) (w : World) :
  0 <= a < 256 ->
  nth_error registers (Z.to_nat a) = Some (RegisterRec_raw true sz p) ->
  sz mod 4 = 0 ->
  fst (WriteRegister registers a v w) = true /\
  ReadRegister registers a x (snd (WriteRegister registers a v w)) = (true, u16 v mod 256).
Proof.
  intros Ha Hn Hsz.
  pose proof (nth_error_in_range registers a _ (proj1 Ha) Hn) as Hb.
  unfold WriteRegister, ReadRegister. rewrite u8_small by lia.
  rewrite Hb, Hn. unfold RegisterRec_raw, RegisterFlags2. simpl. rewrite Hsz. simpl.
  split; [reflexivity|]. rewrite load8_store8. reflexivity.
Qed.

Lemma raw_size_wrap_low_byte_witness :
  0 <= 0 < 256 /\
  nth_error [RegisterRec_raw true 4 30] (Z.to_nat 0) = Some (RegisterRec_raw true 4 30) /\
  4 mod 4 = 0 /\
  (fst (WriteRegister [RegisterRec_raw true 4 30] 0 1000 sample_world) = true /\
   ReadRegister [RegisterRec_raw true 4 30] 0 7
     (snd (WriteRegister [RegisterRec_raw true 4 30] 0 1000 sample_world)) =
   (true, u16 1000 mod 256)).
Proof.
  split; [lia|]. split; [reflexivity|]. split; [reflexivity|].
  apply (raw_size_wrap_low_byte [RegisterRec_raw true 4 30] 0 4 30 1000 7 sample_world);
    [lia | reflexivity | reflexivity].
Defined.

(** A default-constructed register reads the low byte of [dummyZero],
    hence 0, and rejects every write. *)
Theorem empty_register_reads_zero (registers : list RegisterRec) (a dz v x : Z) (w : World) :
  0 <= a < 256 ->
  nth_error registers (Z.to_nat a) = Some (RegisterRec_empty dz) ->
  mem w dz = 0 ->
  ReadRegister registers a x w = (true, 0) /\
  WriteRegister registers a v w = (false, w).
Proof.
  intros Ha Hn Hz.
  pose proof (nth_error_in_range registers a _ (proj1 Ha) Hn) as Hb.
  unfold WriteRegister, ReadRegister. rewrite u8_small by lia.
  rewrite Hb, Hn. simpl. unfold load8. rewrite Hz. split; reflexivity.
Qed.

Lemma empty_register_reads_zero_witness :
  0 <= 1 < 256 /\
  nth_error [RegisterRec_ro (fun _ => 3) 1; RegisterRec_empty 40] (Z.to_nat 1) =
    Some (RegisterRec_empty 40) /\
  mem sample_world 40 = 0 /\
  (ReadRegister [RegisterRec_ro (fun _ => 3) 1; RegisterRec_empty 40] 1 9 sample_world = (true, 0) /\
   WriteRegister [RegisterRec_ro (fun _ => 3) 1; RegisterRec_empty 40] 1 5 sample_world =
     (false, sample_world)).
Proof.
  split; [lia|]. split; [reflexivity|]. split; [reflexivity|].
  apply (empty_register_reads_zero [RegisterRec_ro (fun _ => 3) 1; RegisterRec_empty 40]
           1 40 5 9 sample_world); [lia | reflexivity | reflexivity].
Defined.

End ExtraFacts.

Module HomeExtra.
Import Home.

Lemma apply_op_started (h : Home) (o : Op) :
  (state h = PC_Homing /\ error h = EC_RUNNING) \/ (state h = PC_OK /\ error h = EC_OK) ->
  let h' := apply_op h o in
  (state h' = PC_Homing /\ error h' = EC_RUNNING) \/ (state h' = PC_OK /\ error h' = EC_OK).
Proof.
  intros [[Hs He]|[Hs He]]; destruct o as [p|i s]; cbv zeta; simpl;
    try (left; split; reflexivity); unfold StepInner; rewrite Hs; simpl.
  - destruct (axis_ready i && axis_ready s); simpl; [right | left]; split;
      solve [reflexivity | assumption].
  - right; split; assumption.
Qed.

(** A Home command started by [Reset] never reaches [ERRInternal]: after any
    sequence of [Reset] and [Step] calls it is in (Homing, Running) or
    (OK, Ok). *)
Theorem home_started_never_internal (p : Z) (h : Home) (ops : list Op) :
  let h' := exec (Reset p h) ops in
  (state h' = PC_Homing /\ error h' = EC_RUNNING) \/ (state h' = PC_OK /\ error h' = EC_OK).
Proof.
  cbv zeta. unfold exec.
  assert (H0 : forall h0 : Home,
    (state h0 = PC_Homing /\ error h0 = EC_RUNNING) \/ (state h0 = PC_OK /\ error h0 = EC_OK) ->
    let h' := fold_left apply_op ops h0 in
    (state h' = PC_Homing /\ error h' = EC_RUNNING) \/ (state h' = PC_OK /\ error h' = EC_OK)).
  { induction ops as [|o ops IH]; intros h0 Hh; [exact Hh|].
    simpl. apply IH. exact (apply_op_started h0 o Hh). }
  apply (H0 (Reset p h)). left; split; reflexivity.
Qed.

(** From any state other than [Homing] and [OK], every [Step] of a run
    returns [true] and leaves [ERRInternal]/[Internal]. *)
Theorem home_unhandled_absorbing (h : Home) (obs : list (AxisState * AxisState)) :
  state h <> PC_Homing -> state h <> PC_OK ->
  run h obs = repeat (true, mkHome PC_ERRInternal EC_INTERNAL) (length obs).
Proof.
  intros H1 H2. revert h H1 H2.
  induction obs as [|[i s] obs IH]; intros h H1 H2; [reflexivity|].
  cbn [run]. unfold StepInner at 1.
  destruct (state h) eqn:E; try contradiction;
    simpl; f_equal; apply IH; discriminate.
Qed.

Lemma home_unhandled_absorbing_witness :
  PC_ERR 4 <> PC_Homing /\ PC_ERR 4 <> PC_OK /\
  run (mkHome (PC_ERR 4) (EC_Other 1)) [(Ready, Ready); (Moving, Ready)] =
    repeat (true, mkHome PC_ERRInternal EC_INTERNAL) 2.
Proof.
  split; [discriminate|]. split; [discriminate|].
  apply (home_unhandled_absorbing (mkHome (PC_ERR 4) (EC_Other 1))
           [(Ready, Ready); (Moving, Ready)]); discriminate.
Defined.

End HomeExtra.
